(** * A2A wrapper for a GCP ADK agent: the discovery and execute endpoints

    A shallow embedding of [examples/gcp_agent_wrapper.py].  The module reads
    its configuration from the process environment, publishes a descriptor at
    [GET /.well-known/agent.json] and runs tasks at [POST /execute], where an
    optional shared secret guards a call to the deployer's [process_task].

    Python values are modelled as follows.
    - [str] is [string]; [Optional[T]] is [option T] with [None] for [None].
    - [Dict[str, Any]] coming from a JSON body is an association list of
      [json] values, in insertion order.
    - [os.environ] is a finite map from variable names to values.
    - A coroutine is a [run]: the events it emits (log records, the call of
      the processing function) and how waiting for it ends: it returns, it
      raises, or it never completes. *)

From Stdlib Require Import ZArith Ascii String.
From stdpp Require Import base option list strings gmap.

Local Open Scope string_scope.
Local Open Scope Z_scope.

(** ** JSON values and dictionaries *)

#[warnings="-register-all"]
Inductive json : Type :=
| JNull
| JBool (b : bool)
| JInt (n : Z)
| JStr (s : string)
| JList (l : list json)
| JDict (d : list (string * json)).

(** [Dict[str, Any]] *)
Abbreviation dict := (list (string * json)).

(** [d.keys()] *)
Definition keys (d : dict) : list string := d.*1.

(** [d.get(k)]: the value stored under [k], [None] when there is none. *)
Fixpoint get (d : dict) (k : string) : option json :=
  match d with
  | [] => None
  | (k', v) :: d' => if String.eqb k' k then Some v else get d' k
  end.

(** ** Python helpers the module relies on *)

(** Truth value of an [Optional[str]]: [None] and [""] are false. *)
Definition truthy_str (o : option string) : bool :=
  match o with
  | None => false
  | Some "" => false
  | Some (String _ _) => true
  end.

(** [c or d] for an [Optional[Dict]]: [None] and the empty dict are false,
    so [d] is taken; any other dict is taken itself. *)
Definition or_dict (c : option dict) (d : dict) : dict :=
  match c with
  | None => d
  | Some [] => d
  | Some (kv :: c') => kv :: c'
  end.

(** [f"{x}"] for an [Optional[str]]. *)
Definition fmt (o : option string) : string :=
  match o with
  | None => "None"
  | Some s => s
  end.

(** [s.split(sep)] for a one-character separator: the pieces between the
    occurrences of [sep], empty pieces included; [""] splits to [[""]]. *)
Fixpoint split (sep : ascii) (s : string) : list string :=
  match s with
  | "" => [""]
  | String c s' =>
      if Ascii.eqb c sep then "" :: split sep s'
      else match split sep s' with
           | [] => [String c ""]
           | piece :: pieces => String c piece :: pieces
           end
  end.

(** [s[:n]], the first [n] characters of [s] (all of [s] when it has
    fewer); a character is one element of the string. *)
Definition prefix (n : nat) (s : string) : string := substring 0 n s.

(** [os.getenv(name)] and [os.getenv(name, default)] *)
Definition getenv (environ : gmap string string) (name : string) : option string :=
  environ !! name.

Definition getenv_or (environ : gmap string string) (name default : string) : string :=
  match environ !! name with
  | Some v => v
  | None => default
  end.

(** ** Exceptions, events and coroutines *)

(** An exception object as an [except Exception as e] clause sees it: whether
    it is an instance of [Exception] (if not, it is one of the
    [BaseException]s outside it: [CancelledError], [KeyboardInterrupt],
    [SystemExit]) and its [str(e)]. *)
Record exc : Type := Exc { isinstance_Exception : bool; str : string }.

(** What leaves an endpoint when it raises: an [HTTPException] of its own,
    which the framework turns into a response with that status code and
    detail, or an exception that no clause caught. *)
Inductive raised : Type :=
| HTTPException (status_code : Z) (detail : string)
| Uncaught (e : exc).

Inductive level : Type := DEBUG | INFO | WARNING | ERROR.

Inductive event : Type :=
| Log (lvl : level) (msg : string)
| Invoke (task : string) (user_id : option string) (context : dict).

(** How waiting for a coroutine ends. *)
Inductive completion (E A : Type) : Type :=
| Returns (a : A)
| Raises (e : E)
| Pending.

Arguments Returns {E A} a.
Arguments Raises {E A} e.
Arguments Pending {E A}.

Record run (E A : Type) : Type := Run {
  emitted : list event;
  outcome : completion E A
}.

Arguments Run {E A} emitted outcome.
Arguments emitted {E A} r.
Arguments outcome {E A} r.

Definition raise {E A} (e : E) : run E A := Run [] (Raises e).

(** The numeric value of a level, and the level the module sets with
    [logging.basicConfig(level=logging.INFO)]. *)
Definition levelno (lvl : level) : Z :=
  match lvl with
  | DEBUG => 10
  | INFO => 20
  | WARNING => 30
  | ERROR => 40
  end.

Definition configured_level : level := INFO.

(** [logger.debug(msg)], [logger.info(msg)], [logger.warning(msg)] and
    [logger.error(msg)]: the record is emitted when its level is not below
    the configured one; otherwise the call does nothing. *)
Definition logger (lvl : level) (msg : string) {E} : run E () :=
  if Z.leb (levelno configured_level) (levelno lvl)
  then Run [Log lvl msg] (Returns ())
  else Run [] (Returns ()).

(** [return a] *)
#[global] Instance run_ret {E} : MRet (run E) := λ A a, Run [] (Returns a).

(** Sequencing: the second part runs only when the first has returned. *)
#[global] Instance run_bind {E} : MBind (run E) := λ A B k m,
  match outcome m with
  | Returns a => Run (emitted m ++ emitted (k a)) (outcome (k a))
  | Raises e => Run (emitted m) (Raises e)
  | Pending => Run (emitted m) Pending
  end.

(** [try: body / except Exception as e: handler e].  An exception that is
    not an instance of [Exception] passes through the clause. *)
Definition try_except {A} (body : run exc A) (handler : exc → run raised A)
  : run raised A :=
  match outcome body with
  | Returns a => Run (emitted body) (Returns a)
  | Raises e =>
      if isinstance_Exception e
      then Run (emitted body ++ emitted (handler e)) (outcome (handler e))
      else Run (emitted body) (Raises (Uncaught e))
  | Pending => Run (emitted body) Pending
  end.

(** ** Data models *)

(** A keyword argument of a model's constructor: left out, or given. *)
Inductive kwarg (A : Type) : Type :=
| Omitted
| Given (a : A).

Arguments Omitted {A}.
Arguments Given {A} a.

Definition kwarg_default {A} (k : kwarg A) (default : A) : A :=
  match k with
  | Omitted => default
  | Given a => a
  end.

Module TaskRequest.
Record t : Type := Build {
  task : string;
  user_id : option string;
  context : option dict;
  metadata : option dict
}.

(** [TaskRequest(task=..., user_id=..., context=..., metadata=...)]: an
    omitted field takes the default of its declaration. *)
Definition new (task : string) (user_id : kwarg (option string))
    (context metadata : kwarg (option dict)) : t :=
  {| task := task;
     user_id := kwarg_default user_id (Some "anonymous");
     context := kwarg_default context (Some []);
     metadata := kwarg_default metadata (Some []) |}.
End TaskRequest.

Module TaskResponse.
Record t : Type := Build {
  result : string;
  agent : string;
  status : string;
  metadata : option dict
}.

Definition new (result agent : string) (status : kwarg string)
    (metadata : kwarg (option dict)) : t :=
  {| result := result;
     agent := agent;
     status := kwarg_default status "completed";
     metadata := kwarg_default metadata (Some []) |}.
End TaskResponse.

(** The processing function: [process_task(task, user_id, context)]. *)
Definition processor : Type :=
  string → option string → dict → run exc string.

(** ** The module, in a process with environment [environ] *)

Section Process.
Variable environ : gmap string string.

(** *** Configuration *)

Definition AGENT_NAME : string := getenv_or environ "AGENT_NAME" "gcp-adk-agent".

Definition AGENT_DESCRIPTION : string :=
  getenv_or environ "AGENT_DESCRIPTION" "ADK-based agent running in Google Cloud".

Definition AGENT_CAPABILITIES : list string :=
  split "," (getenv_or environ "AGENT_CAPABILITIES" "general,nlp,conversation").

Definition AGENT_KEYWORDS : list string :=
  split "," (getenv_or environ "AGENT_KEYWORDS" "chat,assistant,help").

Definition API_KEY : option string := getenv environ "API_KEY".

Definition ALLOWED_ORIGINS : string := getenv_or environ "ALLOWED_ORIGINS" "*".

(** *** The placeholder agent logic *)

Definition process_task : processor := λ task user_id context,
  logger INFO ("Processing task: " +:+ task +:+ " for user: " +:+ fmt user_id);;
  let result := "Processed by " +:+ AGENT_NAME +:+ ": " +:+ task in
  mret result.

(** *** Discovery *)

Definition agent_discovery : run raised json :=
  logger INFO "Agent discovery request received";;
  mret (JDict [
    ("name", JStr AGENT_NAME);
    ("description", JStr AGENT_DESCRIPTION);
    ("version", JStr "1.0.0");
    ("protocol", JStr "a2a");
    ("capabilities", JList (JStr <$> AGENT_CAPABILITIES));
    ("keywords", JList (JStr <$> AGENT_KEYWORDS));
    ("endpoints", JDict [
      ("execute", JStr "/execute");
      ("health", JStr "/health");
      ("metrics", JStr "/metrics")]);
    ("contact", JDict [
      ("platform", JStr "Google Cloud Platform");
      ("region", JStr (getenv_or environ "GCP_REGION" "us-central1"));
      ("service", JStr (getenv_or environ "K_SERVICE" "cloud-run"))]);
    ("limits", JDict [
      ("max_task_length", JInt 10000);
      ("timeout_seconds", JInt 30);
      ("rate_limit", JStr "100/minute")])]).

(** *** Execution *)

(** The guard of [execute_task]: [API_KEY and x_api_key != API_KEY]. *)
Definition key_rejected (x_api_key : option string) : bool :=
  truthy_str API_KEY && negb (bool_decide (x_api_key = API_KEY)).

Section Execute.
(** What the name [process_task] is bound to when a request arrives:
    the placeholder above, or the deployer's replacement of it. *)
Variable agent_logic : processor.

(** [await process_task(task=..., user_id=..., context=...)] *)
Definition await_process_task (task : string) (user_id : option string)
    (context : dict) : run exc string :=
  Run (Invoke task user_id context :: emitted (agent_logic task user_id context))
      (outcome (agent_logic task user_id context)).

Definition execute_task (request : TaskRequest.t) (x_api_key : option string)
  : run raised TaskResponse.t :=
  if key_rejected x_api_key then
    logger WARNING ("Unauthorized access attempt from user: "
                    +:+ fmt (TaskRequest.user_id request));;
    raise (HTTPException 401 "Invalid or missing API key")
  else
    logger INFO ("Task execution request from user: "
                 +:+ fmt (TaskRequest.user_id request));;
    logger DEBUG ("Task: " +:+ prefix 100 (TaskRequest.task request) +:+ "...");;
    try_except
      (result ← await_process_task
                  (TaskRequest.task request)
                  (TaskRequest.user_id request)
                  (or_dict (TaskRequest.context request) []);
       logger INFO ("Task completed successfully for user: "
                    +:+ fmt (TaskRequest.user_id request));;
       mret (TaskResponse.new result AGENT_NAME (Given "completed")
              (Given (Some [
                ("platform", JStr "gcp");
                ("service", JStr "cloud-run");
                ("region", JStr (getenv_or environ "GCP_REGION" "unknown"))]))))
      (λ e,
         logger ERROR ("Task execution failed: " +:+ str e);;
         raise (HTTPException 500 ("Task execution failed: " +:+ str e))).
End Execute.

(** *** Startup *)

Section Startup.
(** [f"{tags}"] for a list of strings, that is Python's [repr] of the list;
    its quoting and escaping rules are left open. *)
Variable repr_tags : list string → string.

Definition startup_event : run raised () :=
  logger INFO ("Starting " +:+ AGENT_NAME);;
  logger INFO ("Capabilities: " +:+ repr_tags AGENT_CAPABILITIES);;
  logger INFO ("Keywords: " +:+ repr_tags AGENT_KEYWORDS);;
  logger INFO ("API Key Protection: "
               +:+ (if truthy_str API_KEY then "Enabled" else "Disabled")).
End Startup.
End Process.

(** [j[k]] read defensively: [None] when [j] is no dict or has no [k]. *)
Definition field (j : json) (k : string) : option json :=
  match j with
  | JDict d => get d k
  | _ => None
  end.

(** A processing call settles when waiting for it ends with a result or
    with an instance of [Exception]. *)
Definition settles {A} (r : run exc A) : Prop :=
  match outcome r with
  | Returns _ => True
  | Raises e => isinstance_Exception e = true
  | Pending => False
  end.

(** The error responses of the execute endpoint. *)
Definition Unauthorized : raised := HTTPException 401 "Invalid or missing API key".

Definition ProcessingFailed (detail : string) : raised :=
  HTTPException 500 ("Task execution failed: " +:+ detail).

(** The response [execute_task] builds around a result. *)
Definition completed (environ : gmap string string) (result : string)
  : TaskResponse.t :=
  {| TaskResponse.result := result;
     TaskResponse.agent := AGENT_NAME environ;
     TaskResponse.status := "completed";
     TaskResponse.metadata := Some [
       ("platform", JStr "gcp");
       ("service", JStr "cloud-run");
       ("region", JStr (getenv_or environ "GCP_REGION" "unknown"))] |}.

(** What [execute_task] logs before it calls the agent logic: the record of
    the request; the DEBUG record of the task is below the configured level. *)
Definition preamble (request : TaskRequest.t) : list event :=
  [Log INFO ("Task execution request from user: "
             +:+ fmt (TaskRequest.user_id request))].

(** The call [execute_task] makes for a request. *)
Definition call_of (agent_logic : processor) (request : TaskRequest.t)
  : run exc string :=
  agent_logic (TaskRequest.task request) (TaskRequest.user_id request)
              (or_dict (TaskRequest.context request) []).

Definition invocation (request : TaskRequest.t) : event :=
  Invoke (TaskRequest.task request) (TaskRequest.user_id request)
         (or_dict (TaskRequest.context request) []).

(** Two replacements of the placeholder: agent logic that waits forever
    (say, on a backend that never answers) and agent logic that raises
    [ValueError(msg)]. *)
Definition never_completes : processor := λ _ _ _, Run [] Pending.

Definition always_fails (msg : string) : processor := λ _ _ _,
  Run [] (Raises {| isinstance_Exception := true; str := msg |}).

(** Agent logic that is cancelled while it runs: what it raises is a
    [CancelledError], which is no instance of [Exception]. *)
Definition cancelled : processor := λ _ _ _,
  Run [] (Raises {| isinstance_Exception := false; str := "" |}).

(** [s.count(sep)] and [sep in s] for a one-character [sep]. *)
Fixpoint count (sep : ascii) (s : string) : nat :=
  match s with
  | "" => 0%nat
  | String c s' => if Ascii.eqb c sep then S (count sep s') else count sep s'
  end.

Definition contains (sep : ascii) (s : string) : bool :=
  negb (Nat.eqb (count sep s) 0).

(** ** Health, metrics and root endpoints *)

Section Monitoring.
Variable environ : gmap string string.

Definition health_check : run raised json :=
  mret (JDict [
    ("status", JStr "healthy");
    ("service", JStr (AGENT_NAME environ));
    ("platform", JStr "gcp");
    ("version", JStr "1.0.0")]).

Definition metrics : run raised json :=
  mret (JDict [
    ("agent", JStr (AGENT_NAME environ));
    ("uptime", JStr "healthy");
    ("platform", JStr "gcp")]).

Definition root : run raised json :=
  mret (JDict [
    ("message", JStr ("Welcome to " +:+ AGENT_NAME environ));
    ("discovery", JStr "/.well-known/agent.json");
    ("protocol", JStr "a2a")]).
End Monitoring.

(** The routes the decorators of the module register on [app]. *)
Inductive verb : Type := GET | POST.

Definition routes : list (verb * string) :=
  [(GET, "/.well-known/agent.json"); (POST, "/execute"); (GET, "/health");
   (GET, "/metrics"); (GET, "/")].

(** ** The task form of the web UI ([web_ui/streamlit_app.py]) *)

Module Streamlit.
(** A call of [requests.post]. *)
Record request : Type := Request {
  method : verb;
  url : string;
  json_body : option dict;
  params : dict;
  timeout : Z
}.

(** The page "Submit Task": what is posted, if anything, for the values of
    the widgets. [submit_button] tells whether the button was pressed. *)
Definition submit_task (orchestrator_url user_id task_input execution_mode
    preferred_agent : string) (submit_button : bool) : option request :=
  if submit_button && truthy_str (Some task_input) then
    let endpoint :=
      if String.eqb execution_mode "Synchronous" then "/task" else "/task/async" in
    let payload := [("task", JStr task_input); ("user_id", JStr user_id)] in
    let payload :=
      if truthy_str (Some preferred_agent)
      then (payload ++ [("preferred_agent", JStr preferred_agent)])%list
      else payload in
    Some {| method := POST;
            url := orchestrator_url +:+ endpoint;
            json_body := Some payload;
            params := [];
            timeout := 30 |}
  else None.

End Streamlit.

(** * Properties *)

(** ** Python helpers *)

Lemma split_not_nil sep s : split sep s ≠ [].
Proof.
  destruct s as [|c s]; simpl; [done|].
  destruct (Ascii.eqb c sep); [done|].
  by destruct (split sep s).
Qed.

Lemma or_dict_Some (c : dict) : or_dict (Some c) [] = c.
Proof. by destruct c. Qed.

Lemma truthy_str_true o : truthy_str o = true ↔ ∃ s, o = Some s ∧ s ≠ "".
Proof.
  split.
  - destruct o as [[|c s]|]; simpl; try discriminate.
    intros _. by exists (String c s).
  - intros (s & -> & Hs). by destruct s.
Qed.

Lemma getenv_or_insert_ne environ k v name default :
  k ≠ name →
  getenv_or (<[k:=v]> environ) name default = getenv_or environ name default.
Proof. intros Hne. unfold getenv_or. by rewrite lookup_insert_ne. Qed.

Lemma getenv_or_delete_ne environ k name default :
  k ≠ name →
  getenv_or (delete k environ) name default = getenv_or environ name default.
Proof. intros Hne. unfold getenv_or. by rewrite lookup_delete_ne. Qed.

(** ** The key check *)

Section KeyCheck.
Variable environ : gmap string string.

Lemma key_rejected_true x_api_key :
  key_rejected environ x_api_key = true ↔
  ∃ secret, environ !! "API_KEY" = Some secret ∧ secret ≠ ""
            ∧ x_api_key ≠ Some secret.
Proof.
  unfold key_rejected, API_KEY, getenv.
  rewrite andb_true_iff, negb_true_iff, bool_decide_eq_false, truthy_str_true.
  split.
  - intros [(s & Hs & Hne) Hk]. exists s. by rewrite <- Hs.
  - intros (s & Hs & Hne & Hk). split; [by exists s | by rewrite Hs].
Qed.

Lemma key_rejected_false x_api_key :
  key_rejected environ x_api_key = false ↔
  environ !! "API_KEY" = None ∨ environ !! "API_KEY" = Some ""
  ∨ x_api_key = environ !! "API_KEY".
Proof.
  rewrite <- not_true_iff_false, key_rejected_true.
  destruct (environ !! "API_KEY") as [secret|] eqn:Hkey.
  - destruct (decide (secret = "")) as [->|Hne].
    + split; [auto|]. intros _ (s & [= <-] & Hs & _). done.
    + split.
      * intros Hno. right; right.
        destruct (decide (x_api_key = Some secret)) as [|Hk]; [done|].
        destruct Hno. by exists secret.
      * intros [|[[= ->]| ->]]; [done..|]. intros (s & [= <-] & _ & Hk). done.
  - split; [auto|]. intros _ (s & Hs & _). done.
Qed.
End KeyCheck.

(** ** The shape of a run of [execute_task] *)

Section Shape.
Variables (environ : gmap string string) (agent_logic : processor).
Variables (request : TaskRequest.t) (x_api_key : option string).

Lemma execute_task_rejected :
  key_rejected environ x_api_key = true →
  execute_task environ agent_logic request x_api_key
  = Run [Log WARNING ("Unauthorized access attempt from user: "
                      +:+ fmt (TaskRequest.user_id request))]
        (Raises Unauthorized).
Proof. intros Hk. unfold execute_task. by rewrite Hk. Qed.

Lemma execute_task_returns result :
  key_rejected environ x_api_key = false →
  outcome (call_of agent_logic request) = Returns result →
  execute_task environ agent_logic request x_api_key
  = Run (preamble request ++ invocation request
           :: emitted (call_of agent_logic request)
           ++ [Log INFO ("Task completed successfully for user: "
                         +:+ fmt (TaskRequest.user_id request))])
        (Returns (completed environ result)).
Proof.
  intros Hk Hcall. unfold execute_task, call_of in *. rewrite Hk.
  unfold try_except, await_process_task, mbind, run_bind; simpl.
  by rewrite Hcall.
Qed.

Lemma execute_task_raises e :
  key_rejected environ x_api_key = false →
  outcome (call_of agent_logic request) = Raises e →
  execute_task environ agent_logic request x_api_key
  = if isinstance_Exception e
    then Run (preamble request ++ invocation request
                :: emitted (call_of agent_logic request)
                ++ [Log ERROR ("Task execution failed: " +:+ str e)])
             (Raises (ProcessingFailed (str e)))
    else Run (preamble request ++ invocation request
                :: emitted (call_of agent_logic request))
             (Raises (Uncaught e)).
Proof.
  intros Hk Hcall. unfold execute_task, call_of in *. rewrite Hk.
  unfold try_except, await_process_task, mbind, run_bind; simpl.
  rewrite Hcall; simpl. by destruct (isinstance_Exception e).
Qed.

Lemma execute_task_pending :
  key_rejected environ x_api_key = false →
  outcome (call_of agent_logic request) = Pending →
  execute_task environ agent_logic request x_api_key
  = Run (preamble request ++ invocation request
           :: emitted (call_of agent_logic request))
        Pending.
Proof.
  intros Hk Hcall. unfold execute_task, call_of in *. rewrite Hk.
  unfold try_except, await_process_task, mbind, run_bind; simpl.
  by rewrite Hcall.
Qed.

(** Past the key check the call of the agent logic is always made. *)
Lemma execute_task_invokes :
  key_rejected environ x_api_key = false →
  ∃ rest, emitted (execute_task environ agent_logic request x_api_key)
          = (preamble request ++ invocation request :: rest)%list.
Proof.
  intros Hk.
  destruct (outcome (call_of agent_logic request)) as [r|e|] eqn:Hcall.
  - rewrite (execute_task_returns r) by done. eauto.
  - rewrite (execute_task_raises e) by done.
    destruct (isinstance_Exception e); eauto.
  - rewrite execute_task_pending by done. eauto.
Qed.
End Shape.

(** ** The placeholder agent logic *)

Lemma process_task_run environ task user_id context :
  process_task environ task user_id context
  = Run [Log INFO ("Processing task: " +:+ task +:+ " for user: " +:+ fmt user_id)]
        (Returns ("Processed by " +:+ AGENT_NAME environ +:+ ": " +:+ task)).
Proof. reflexivity. Qed.

Lemma process_task_settles environ task user_id context :
  settles (process_task environ task user_id context).
Proof. by rewrite process_task_run. Qed.

(** ** Outcomes of the execute endpoint *)

Section Outcome.
Variables (environ : gmap string string) (agent_logic : processor).
Variables (request : TaskRequest.t) (x_api_key : option string).

(** How a run of [execute_task] ends, by the key check and by how the call
    of the agent logic ends. *)
Lemma execute_task_outcome :
  outcome (execute_task environ agent_logic request x_api_key)
  = if key_rejected environ x_api_key then Raises Unauthorized
    else match outcome (call_of agent_logic request) with
         | Returns result => Returns (completed environ result)
         | Raises e =>
             Raises (if isinstance_Exception e then ProcessingFailed (str e)
                     else Uncaught e)
         | Pending => Pending
         end.
Proof.
  destruct (key_rejected environ x_api_key) eqn:Hk.
  - by rewrite execute_task_rejected.
  - destruct (outcome (call_of agent_logic request)) as [res|e|] eqn:Hcall.
    + by rewrite (execute_task_returns _ _ _ _ res).
    + rewrite (execute_task_raises _ _ _ _ e) by done.
      by destruct (isinstance_Exception e).
    + by rewrite execute_task_pending.
Qed.

(** What a run of [execute_task] emits once the key check is passed: the
    record of the request, the call, what the call emits, and then what
    [execute_task] logs about the end of the call, if anything. *)
Lemma execute_task_emitted :
  key_rejected environ x_api_key = false →
  ∃ rest, emitted (execute_task environ agent_logic request x_api_key)
          = (preamble request ++ invocation request
               :: emitted (call_of agent_logic request) ++ rest)%list.
Proof.
  intros Hk.
  destruct (outcome (call_of agent_logic request)) as [res|e|] eqn:Hcall.
  - rewrite (execute_task_returns _ _ _ _ res) by done. eauto.
  - rewrite (execute_task_raises _ _ _ _ e) by done.
    destruct (isinstance_Exception e); [eauto|].
    exists []. by rewrite app_nil_r.
  - rewrite execute_task_pending by done. exists []. by rewrite app_nil_r.
Qed.
End Outcome.

(** C1, as stated, fails for agent logic that does not settle.  When the
    call is cancelled, the [CancelledError] leaves [execute_task] uncaught,
    and when the call never completes, [execute_task] never ends: in both
    cases the caller gets neither a response nor one of the error responses. *)
Lemma execute_task_neither_outcome :
  let request := TaskRequest.new "Plan a trip to Paris" (Given (Some "u1"))
                   Omitted Omitted in
  let stopped := outcome (execute_task ∅ cancelled request None) in
  let hanging := outcome (execute_task ∅ never_completes request None) in
  (∀ response, stopped ≠ Returns response)
  ∧ (∀ status_code detail, stopped ≠ Raises (HTTPException status_code detail))
  ∧ (∀ response, hanging ≠ Returns response)
  ∧ (∀ error, hanging ≠ Raises error).
Proof. by split_and!. Qed.

(** C1, amended.  [execute_task] ends with exactly one of a [TaskResponse]
    and an error response, which is the 401 of the key check or the 500 of a
    failed call, if and only if the key is rejected or the call of the agent
    logic settles; it never ends with both.  A rejected key gives the 401.
    Past the key check the end of the call decides: a result gives the
    response built around it, an instance of [Exception] the 500 with its
    text, any other exception leaves uncaught, and a call that never
    completes leaves [execute_task] pending, without a timeout error. *)
Theorem execute_task_one_outcome_iff environ agent_logic request x_api_key :
  let o := outcome (execute_task environ agent_logic request x_api_key) in
  let one_response := ∃ response, o = Returns response in
  let one_error :=
    ∃ error, o = Raises error
             ∧ (error = Unauthorized ∨ ∃ detail, error = ProcessingFailed detail) in
  ((one_response ∨ one_error)
   ↔ (key_rejected environ x_api_key = true ∨ settles (call_of agent_logic request)))
  ∧ ¬ (one_response ∧ one_error)
  ∧ (key_rejected environ x_api_key = true → o = Raises Unauthorized)
  ∧ (key_rejected environ x_api_key = false →
       match outcome (call_of agent_logic request) with
       | Returns result => o = Returns (completed environ result)
       | Raises e =>
           o = Raises (if isinstance_Exception e then ProcessingFailed (str e)
                       else Uncaught e)
       | Pending => o = Pending
       end).
Proof.
  intros o one_response one_error. subst o one_response one_error.
  rewrite execute_task_outcome. unfold settles.
  destruct (key_rejected environ x_api_key).
  { split_and!; [| intros [[? [=]] _] | done | done].
    split; [auto|]. intros _. right. eauto. }
  destruct (outcome (call_of agent_logic request)) as [res|e|].
  - split_and!; [| intros [_ (? & [=] & _)] | done | done].
    split; [auto|]. intros _. left. eauto.
  - destruct (isinstance_Exception e).
    + split_and!; [| intros [[? [=]] _] | done | done].
      split; [auto|]. intros _. right. eauto 6.
    + split_and!; [| intros [[? [=]] _] | done | done].
      split; [|by intros [|]].
      intros [[? [=]] | (? & [= <-] & [[=] | [? [=]]])].
  - split_and!; [| intros [[? [=]] _] | done | done].
    split; [|by intros [|]]. intros [[? [=]] | (? & [=] & _)].
Qed.

Lemma execute_task_one_outcome_iff_witness :
  let request := TaskRequest.new "Convert 100 USD to EUR" (Given (Some "u1"))
                   Omitted Omitted in
  outcome (execute_task ∅ (process_task ∅) request None)
  = Returns (completed ∅ "Processed by gcp-adk-agent: Convert 100 USD to EUR").
Proof.
  intros request.
  destruct (execute_task_one_outcome_iff ∅ (process_task ∅) request None)
    as (_ & _ & _ & Hpassed).
  exact (Hpassed eq_refl).
Defined.

(** ** Authorization *)

(** C2, as stated, fails when the secret is set to the empty string.  With
    [API_KEY = ""] in the environment and the key ["wrong"] presented, the
    secret is configured and the key differs from it, yet the request is
    not answered with 401: the agent logic is called and its result is
    returned. *)
Lemma execute_task_empty_secret_wrong_key :
  let environ : gmap string string := {["API_KEY" := ""]} in
  let request := TaskRequest.new "Convert 100 USD to EUR" (Given (Some "u1"))
                   Omitted Omitted in
  let r := execute_task environ (process_task environ) request (Some "wrong") in
  API_KEY environ = Some ""
  ∧ Some "wrong" ≠ API_KEY environ
  ∧ outcome r ≠ Raises Unauthorized
  ∧ outcome r = Returns (completed environ
                           "Processed by gcp-adk-agent: Convert 100 USD to EUR")
  ∧ Invoke "Convert 100 USD to EUR" (Some "u1") [] ∈ emitted r.
Proof.
  simpl. split_and!; [done | done | done | done |].
  vm_compute. apply list_elem_of_further, list_elem_of_here.
Qed.

(** C2, amended.  A request is answered with 401 exactly when a non-empty
    secret is configured and the presented key, if any, is not that secret;
    then nothing but the warning is emitted, so the agent logic is not
    called.  In every other case (no secret, an empty secret, or the exact
    secret presented) the request passes and the agent logic is called. *)
Theorem execute_task_unauthorized_iff environ agent_logic request x_api_key :
  let r := execute_task environ agent_logic request x_api_key in
  let denied := ∃ secret, API_KEY environ = Some secret ∧ secret ≠ ""
                          ∧ x_api_key ≠ Some secret in
  (denied ↔ outcome r = Raises Unauthorized)
  ∧ (denied → ∀ task user_id context, Invoke task user_id context ∉ emitted r)
  ∧ (¬ denied → invocation request ∈ emitted r).
Proof.
  intros r denied. subst r.
  assert (Hdenied : denied ↔ key_rejected environ x_api_key = true)
    by (symmetry; apply key_rejected_true).
  destruct (key_rejected environ x_api_key) eqn:Hk.
  - rewrite execute_task_rejected by done; simpl.
    split_and!.
    + split; [done | intros _; by apply Hdenied].
    + intros _ task user_id context [Hin|Hin]%elem_of_cons; [done|].
      by apply elem_of_nil in Hin.
    + intros Hno. destruct Hno. by apply Hdenied.
  - assert (Hno : ¬ denied) by (rewrite Hdenied; done).
    split_and!.
    + split; [done|]. intros Hout. exfalso.
      destruct (outcome (call_of agent_logic request)) as [res|e|] eqn:Hcall.
      * by rewrite (execute_task_returns _ _ _ _ res) in Hout.
      * rewrite (execute_task_raises _ _ _ _ e) in Hout by done.
        by destruct (isinstance_Exception e).
      * by rewrite execute_task_pending in Hout.
    + done.
    + intros _.
      destruct (execute_task_invokes environ agent_logic request x_api_key Hk)
        as [rest ->].
      apply elem_of_app. right. apply list_elem_of_here.
Qed.

Lemma execute_task_unauthorized_iff_witness :
  let environ : gmap string string := {["API_KEY" := "s3cret"]} in
  let request := TaskRequest.new "Convert 100 USD to EUR" (Given (Some "u1"))
                   Omitted Omitted in
  outcome (execute_task environ (process_task environ) request (Some "wrong"))
  = Raises Unauthorized.
Proof.
  intros environ request.
  apply (execute_task_unauthorized_iff environ (process_task environ) request
           (Some "wrong")).
  exists "s3cret". split_and!; [reflexivity | discriminate | discriminate].
Defined.

(** C8.  With the secret set to the empty string no key is checked: the
    run of [execute_task] is the same whatever key is presented, and it is
    not a 401 (the startup log reports the protection as disabled).  A 401
    is raised only when the secret is a non-empty string and the presented
    key differs from it. *)
Theorem execute_task_empty_secret_open environ agent_logic request x_api_key :
  let r := execute_task environ agent_logic request x_api_key in
  (API_KEY environ = Some "" →
     key_rejected environ x_api_key = false
     ∧ r = execute_task environ agent_logic request None
     ∧ invocation request ∈ emitted r
     ∧ (∀ detail, outcome r ≠ Raises (HTTPException 401 detail))
     ∧ ∀ repr_tags, Log INFO "API Key Protection: Disabled"
                      ∈ emitted (startup_event environ repr_tags))
  ∧ (∀ detail, outcome r = Raises (HTTPException 401 detail) →
       ∃ secret, API_KEY environ = Some secret ∧ secret ≠ ""
                 ∧ x_api_key ≠ Some secret).
Proof.
  intros r. subst r. split.
  - intros Hempty.
    assert (Hopen : ∀ k, key_rejected environ k = false).
    { intros k. apply key_rejected_false. auto. }
    split_and!.
    + apply Hopen.
    + unfold execute_task. by rewrite !Hopen.
    + destruct (execute_task_invokes environ agent_logic request x_api_key
                  (Hopen _)) as [rest ->].
      apply elem_of_app. right. apply list_elem_of_here.
    + intros detail Hout.
      destruct (outcome (call_of agent_logic request)) as [res|e|] eqn:Hcall.
      * by rewrite (execute_task_returns _ _ _ _ res) in Hout.
      * rewrite (execute_task_raises _ _ _ _ e) in Hout by done.
        by destruct (isinstance_Exception e).
      * by rewrite execute_task_pending in Hout.
    + intros repr_tags. unfold startup_event. rewrite Hempty. simpl.
      do 3 apply list_elem_of_further. apply list_elem_of_here.
  - intros detail Hout. apply key_rejected_true.
    destruct (key_rejected environ x_api_key) eqn:Hk; [done|]. exfalso.
    destruct (outcome (call_of agent_logic request)) as [res|e|] eqn:Hcall.
    + by rewrite (execute_task_returns _ _ _ _ res) in Hout.
    + rewrite (execute_task_raises _ _ _ _ e) in Hout by done.
      by destruct (isinstance_Exception e).
    + by rewrite execute_task_pending in Hout.
Qed.

Lemma execute_task_empty_secret_open_witness :
  let environ : gmap string string := {["API_KEY" := ""]} in
  let request := TaskRequest.new "Plan a trip to Paris" Omitted Omitted Omitted in
  execute_task environ (always_fails "boom") request (Some "guess")
  = execute_task environ (always_fails "boom") request None.
Proof.
  intros environ request.
  apply (execute_task_empty_secret_open environ (always_fails "boom") request
           (Some "guess")).
  reflexivity.
Defined.

(** ** No timeout *)

(** C3, as stated, fails: nothing bounds the call of the agent logic.  With
    agent logic that never completes, a request that passes the key check
    gets no answer at all, neither a timeout error nor any other. *)
Lemma execute_task_blocks_without_timeout :
  let request := TaskRequest.new "Convert 100 USD to EUR" (Given (Some "u1"))
                   Omitted Omitted in
  let r := execute_task ∅ never_completes request None in
  outcome r = Pending ∧ ∀ error, outcome r ≠ Raises error.
Proof. by split. Qed.

(** C3, amended.  The descriptor advertises [limits.timeout_seconds = 30],
    but [execute_task] applies no timeout to the call of the agent logic: it
    stays pending exactly when the request passes the key check and the call
    never completes, and the only error responses it raises are 401 and
    500, so there is no timeout error. *)
Theorem execute_task_no_timeout environ agent_logic request x_api_key :
  let r := execute_task environ agent_logic request x_api_key in
  (∃ descriptor limits,
     outcome (agent_discovery environ) = Returns descriptor
     ∧ field descriptor "limits" = Some limits
     ∧ field limits "timeout_seconds" = Some (JInt 30))
  ∧ (outcome r = Pending ↔
     key_rejected environ x_api_key = false
     ∧ outcome (call_of agent_logic request) = Pending)
  ∧ (∀ status_code detail,
       outcome r = Raises (HTTPException status_code detail) →
       status_code = 401 ∨ status_code = 500).
Proof.
  intros r. subst r. split; [by eexists _, _|].
  destruct (key_rejected environ x_api_key) eqn:Hk.
  - rewrite execute_task_rejected by done; simpl. split.
    + split; [done | by intros [? _]].
    + intros status_code detail [= <- _]. by left.
  - destruct (outcome (call_of agent_logic request)) as [res|e|] eqn:Hcall.
    + rewrite (execute_task_returns _ _ _ _ res) by done; simpl.
      split; [split; [done | by intros [_ ?]] | done].
    + rewrite (execute_task_raises _ _ _ _ e) by done.
      destruct (isinstance_Exception e); simpl.
      * split; [split; [done | by intros [_ ?]] |].
        intros status_code detail [= <- _]. by right.
      * split; [split; [done | by intros [_ ?]] | done].
    + rewrite execute_task_pending by done; simpl.
      split; [done | done].
Qed.

(** ** Processing *)

(** C4.  When a request passes the key check and the agent logic fails,
    that is raises an instance [e] of [Exception], [execute_task] raises the
    500 whose detail carries [str(e)], logs the failure as an error and
    returns no response. *)
Theorem execute_task_processing_failed environ agent_logic request x_api_key e :
  key_rejected environ x_api_key = false →
  outcome (call_of agent_logic request) = Raises e →
  isinstance_Exception e = true →
  let r := execute_task environ agent_logic request x_api_key in
  outcome r = Raises (HTTPException 500 ("Task execution failed: " +:+ str e))
  ∧ Log ERROR ("Task execution failed: " +:+ str e) ∈ emitted r
  ∧ ∀ response, outcome r ≠ Returns response.
Proof.
  intros Hk Hcall He r. subst r.
  rewrite (execute_task_raises _ _ _ _ e), He by done; simpl.
  split_and!; [done | | done].
  rewrite !elem_of_cons, elem_of_app, list_elem_of_singleton. auto.
Qed.

Lemma execute_task_processing_failed_witness :
  let request := TaskRequest.new "Convert 100 USD to EUR" (Given (Some "u1"))
                   Omitted Omitted in
  let r := execute_task ∅ (always_fails "rate service down") request None in
  outcome r
  = Raises (HTTPException 500 "Task execution failed: rate service down")
  ∧ Log ERROR "Task execution failed: rate service down" ∈ emitted r
  ∧ ∀ response, outcome r ≠ Returns response.
Proof.
  intros request.
  apply (execute_task_processing_failed ∅ (always_fails "rate service down")
           request None {| isinstance_Exception := true;
                           str := "rate service down" |});
    reflexivity.
Defined.

(** C5.  When a request passes the key check and the agent logic returns
    the text [result], [execute_task] returns a response whose [result] is
    that text, whose [status] is ["completed"], whose [agent] is
    [AGENT_NAME], the name the descriptor publishes, and whose [metadata]
    has the platform, service and region tags. *)
Theorem execute_task_completed environ agent_logic request x_api_key result :
  key_rejected environ x_api_key = false →
  outcome (call_of agent_logic request) = Returns result →
  ∃ response tags,
    outcome (execute_task environ agent_logic request x_api_key)
    = Returns response
    ∧ TaskResponse.result response = result
    ∧ TaskResponse.status response = "completed"
    ∧ TaskResponse.agent response = AGENT_NAME environ
    ∧ (∃ descriptor, outcome (agent_discovery environ) = Returns descriptor
         ∧ field descriptor "name" = Some (JStr (TaskResponse.agent response)))
    ∧ TaskResponse.metadata response = Some tags
    ∧ keys tags = ["platform"; "service"; "region"]
    ∧ get tags "platform" = Some (JStr "gcp")
    ∧ get tags "service" = Some (JStr "cloud-run")
    ∧ get tags "region" = Some (JStr (getenv_or environ "GCP_REGION" "unknown")).
Proof.
  intros Hk Hcall.
  rewrite (execute_task_returns _ _ _ _ result) by done.
  eexists _, _. split_and!; try reflexivity.
  eexists. split; reflexivity.
Qed.

Lemma execute_task_completed_witness :
  let environ : gmap string string :=
    {["API_KEY" := "s3cret"; "AGENT_NAME" := "fx-agent"; "GCP_REGION" := "europe-west1"]} in
  let request := TaskRequest.new "Convert 100 USD to EUR" (Given (Some "u1"))
                   Omitted Omitted in
  ∃ response tags,
    outcome (execute_task environ (process_task environ) request (Some "s3cret"))
    = Returns response
    ∧ TaskResponse.result response = "Processed by fx-agent: Convert 100 USD to EUR"
    ∧ TaskResponse.status response = "completed"
    ∧ TaskResponse.agent response = AGENT_NAME environ
    ∧ (∃ descriptor, outcome (agent_discovery environ) = Returns descriptor
         ∧ field descriptor "name" = Some (JStr (TaskResponse.agent response)))
    ∧ TaskResponse.metadata response = Some tags
    ∧ keys tags = ["platform"; "service"; "region"]
    ∧ get tags "platform" = Some (JStr "gcp")
    ∧ get tags "service" = Some (JStr "cloud-run")
    ∧ get tags "region" = Some (JStr (getenv_or environ "GCP_REGION" "unknown")).
Proof.
  intros environ request.
  apply (execute_task_completed environ (process_task environ) request
           (Some "s3cret") "Processed by fx-agent: Convert 100 USD to EUR");
    reflexivity.
Defined.

(** C10.  With the placeholder agent logic, a request that passes the key
    check is answered with a response whose [status] is ["completed"] and
    whose [result] is ["Processed by "], the agent name, [": "] and the task
    text, so it is not empty; and for no request at all does [execute_task]
    reach its failure branch: it neither raises a 500 nor logs an error. *)
Theorem execute_task_placeholder environ request x_api_key :
  let r := execute_task environ (process_task environ) request x_api_key in
  (key_rejected environ x_api_key = false →
     ∃ response,
       outcome r = Returns response
       ∧ TaskResponse.status response = "completed"
       ∧ TaskResponse.result response
         = "Processed by " +:+ AGENT_NAME environ +:+ ": "
           +:+ TaskRequest.task request
       ∧ TaskResponse.result response ≠ "")
  ∧ (∀ detail, outcome r ≠ Raises (HTTPException 500 detail))
  ∧ (∀ msg, Log ERROR msg ∉ emitted r).
Proof.
  intros r. subst r.
  destruct (key_rejected environ x_api_key) eqn:Hk.
  - rewrite execute_task_rejected by done; simpl.
    split_and!; [done | done |].
    intros msg [Hin|Hin]%elem_of_cons; [done | by apply elem_of_nil in Hin].
  - rewrite (execute_task_returns _ _ _ _
               ("Processed by " +:+ AGENT_NAME environ +:+ ": "
                +:+ TaskRequest.task request)) by done.
    simpl. split_and!; [by eexists | done |].
    intros msg Hin. rewrite !elem_of_cons, elem_of_nil in Hin.
    unfold invocation in Hin.
    destruct Hin as [Hin|[Hin|[Hin|[Hin|[]]]]]; discriminate.
Qed.

Lemma execute_task_placeholder_witness :
  let request := TaskRequest.new "Convert 100 USD to EUR" (Given (Some "u1"))
                   Omitted Omitted in
  ∃ response,
    outcome (execute_task ∅ (process_task ∅) request None) = Returns response
    ∧ TaskResponse.status response = "completed"
    ∧ TaskResponse.result response
      = "Processed by " +:+ AGENT_NAME ∅ +:+ ": " +:+ TaskRequest.task request
    ∧ TaskResponse.result response ≠ "".
Proof.
  intros request.
  apply (execute_task_placeholder ∅ request None).
  reflexivity.
Defined.

(** ** Discovery *)

(** Discovery reads every variable of the environment but [API_KEY]. *)
Lemma agent_discovery_ignores_key environ secret :
  agent_discovery (<["API_KEY" := secret]> environ) = agent_discovery environ
  ∧ agent_discovery (delete "API_KEY" environ) = agent_discovery environ.
Proof.
  unfold agent_discovery, AGENT_NAME, AGENT_DESCRIPTION, AGENT_CAPABILITIES,
    AGENT_KEYWORDS.
  split.
  - by rewrite !getenv_or_insert_ne.
  - by rewrite !getenv_or_delete_ne.
Qed.

(** C6.  Discovery takes no key, does not depend on the configured secret
    and always returns: after one log record it yields a dict with the
    fields name, description, version, protocol, capabilities, keywords,
    endpoints, contact and limits, where protocol is ["a2a"] and the other
    values are those of the environment, with the defaults of the module
    for the variables that are not set. *)
Theorem agent_discovery_descriptor environ :
  ∃ d,
    agent_discovery environ
    = Run [Log INFO "Agent discovery request received"] (Returns (JDict d))
    ∧ keys d = ["name"; "description"; "version"; "protocol"; "capabilities";
                "keywords"; "endpoints"; "contact"; "limits"]
    ∧ get d "protocol" = Some (JStr "a2a")
    ∧ get d "version" = Some (JStr "1.0.0")
    ∧ get d "name"
      = Some (JStr (default "gcp-adk-agent" (environ !! "AGENT_NAME")))
    ∧ get d "description"
      = Some (JStr (default "ADK-based agent running in Google Cloud"
                      (environ !! "AGENT_DESCRIPTION")))
    ∧ get d "capabilities"
      = Some (JList (JStr <$> split "," (default "general,nlp,conversation"
                                           (environ !! "AGENT_CAPABILITIES"))))
    ∧ get d "keywords"
      = Some (JList (JStr <$> split "," (default "chat,assistant,help"
                                           (environ !! "AGENT_KEYWORDS"))))
    ∧ get d "endpoints"
      = Some (JDict [("execute", JStr "/execute"); ("health", JStr "/health");
                     ("metrics", JStr "/metrics")])
    ∧ get d "contact"
      = Some (JDict [("platform", JStr "Google Cloud Platform");
                     ("region", JStr (default "us-central1" (environ !! "GCP_REGION")));
                     ("service", JStr (default "cloud-run" (environ !! "K_SERVICE")))])
    ∧ get d "limits"
      = Some (JDict [("max_task_length", JInt 10000); ("timeout_seconds", JInt 30);
                     ("rate_limit", JStr "100/minute")])
    ∧ (∀ secret, agent_discovery (<["API_KEY" := secret]> environ)
                 = agent_discovery environ)
    ∧ agent_discovery (delete "API_KEY" environ) = agent_discovery environ.
Proof.
  eexists. split; [reflexivity|].
  unfold AGENT_NAME, AGENT_DESCRIPTION, AGENT_CAPABILITIES, AGENT_KEYWORDS,
    getenv_or, default.
  split_and!; try reflexivity.
  - intros secret. apply agent_discovery_ignores_key.
  - apply (agent_discovery_ignores_key environ "").
Qed.

(** ** Requests *)

(** C7, as stated, fails for the metadata: it is kept in the request as
    supplied, but [execute_task] passes it on to nothing.  Whatever the
    agent logic, the run for a request with the metadata [{"trace": "t-1"}]
    is the run for the same request with empty metadata, and the metadata
    of the response is the tags of the module, not that of the request. *)
Lemma request_metadata_is_dropped :
  let traced := TaskRequest.new "Plan a trip to Paris" Omitted Omitted
                  (Given (Some [("trace", JStr "t-1")])) in
  let plain := TaskRequest.new "Plan a trip to Paris" Omitted Omitted
                 (Given (Some [])) in
  TaskRequest.metadata traced = Some [("trace", JStr "t-1")]
  ∧ (∀ agent_logic, execute_task ∅ agent_logic traced None
                    = execute_task ∅ agent_logic plain None)
  ∧ ∃ response,
      outcome (execute_task ∅ (process_task ∅) traced None) = Returns response
      ∧ TaskResponse.metadata response
        = Some [("platform", JStr "gcp"); ("service", JStr "cloud-run");
                ("region", JStr "unknown")]
      ∧ TaskResponse.metadata response ≠ TaskRequest.metadata traced.
Proof. split_and!; [done | done |]. by eexists. Qed.

(** C7, amended.  A request built without [user_id] has the user
    ["anonymous"], and its context and metadata are stored as given.  When a
    request whose context is a dict passes the key check, the agent logic is
    called with the task, the user and that very dict: what this call emits
    is part of the run, and how it ends decides how [execute_task] ends.
    The metadata of a request is not passed on: it is never read, so a run
    of [execute_task] does not depend on it. *)
Theorem task_request_passthrough
    environ agent_logic request x_api_key (context : dict) :
  key_rejected environ x_api_key = false →
  TaskRequest.context request = Some context →
  let call := agent_logic (TaskRequest.task request)
                (TaskRequest.user_id request) context in
  let r := execute_task environ agent_logic request x_api_key in
  (∀ task c m,
     TaskRequest.user_id (TaskRequest.new task Omitted c m) = Some "anonymous")
  ∧ (∀ task u c m,
       TaskRequest.context (TaskRequest.new task u (Given c) (Given m)) = c
       ∧ TaskRequest.metadata (TaskRequest.new task u (Given c) (Given m)) = m)
  ∧ (∃ rest, emitted r
             = (preamble request
                ++ Invoke (TaskRequest.task request)
                          (TaskRequest.user_id request) context
                :: emitted call ++ rest)%list)
  ∧ match outcome call with
    | Returns result => outcome r = Returns (completed environ result)
    | Raises e =>
        outcome r = Raises (if isinstance_Exception e then ProcessingFailed (str e)
                            else Uncaught e)
    | Pending => outcome r = Pending
    end
  ∧ (∀ metadata',
       execute_task environ agent_logic
         {| TaskRequest.task := TaskRequest.task request;
            TaskRequest.user_id := TaskRequest.user_id request;
            TaskRequest.context := TaskRequest.context request;
            TaskRequest.metadata := metadata' |} x_api_key
       = r).
Proof.
  intros Hk Hctx call r.
  assert (Hcall : call_of agent_logic request = call)
    by (unfold call_of, call; by rewrite Hctx, or_dict_Some).
  split_and!; [done | done | | | done].
  - destruct (execute_task_emitted environ agent_logic request x_api_key Hk)
      as [rest Hrest].
    exists rest. subst r. rewrite Hrest, Hcall. unfold invocation.
    by rewrite Hctx, or_dict_Some.
  - subst r. rewrite execute_task_outcome, Hk, Hcall.
    by destruct (outcome call).
Qed.

Lemma task_request_passthrough_witness :
  let history : dict := [("history", JList [JStr "hello"]); ("locale", JStr "fr")] in
  let request := TaskRequest.new "Plan a trip to Paris" Omitted
                   (Given (Some history)) (Given (Some [("trace", JStr "t-1")])) in
  let call := process_task ∅ "Plan a trip to Paris" (Some "anonymous") history in
  ∃ rest, emitted (execute_task ∅ (process_task ∅) request None)
          = (preamble request
             ++ Invoke "Plan a trip to Paris" (Some "anonymous") history
             :: emitted call ++ rest)%list.
Proof.
  intros history request call.
  apply (task_request_passthrough ∅ (process_task ∅) request None history);
    reflexivity.
Defined.

(** C9.  When a request that was built without a context, or with [None]
    for it, passes the key check, the agent logic is called with the empty
    dict for the context, never with [None]: what the call with the task,
    the user and the empty dict emits is part of the run, and how that call
    ends decides how [execute_task] ends. *)
Theorem execute_task_context_never_none
    environ agent_logic task user_id context metadata x_api_key :
  key_rejected environ x_api_key = false →
  context = Omitted ∨ context = Given None →
  let request := TaskRequest.new task user_id context metadata in
  let call := agent_logic task (TaskRequest.user_id request) [] in
  let r := execute_task environ agent_logic request x_api_key in
  or_dict (TaskRequest.context request) [] = []
  ∧ (∃ rest, emitted r
             = (preamble request
                ++ Invoke task (TaskRequest.user_id request) []
                :: emitted call ++ rest)%list)
  ∧ match outcome call with
    | Returns result => outcome r = Returns (completed environ result)
    | Raises e =>
        outcome r = Raises (if isinstance_Exception e then ProcessingFailed (str e)
                            else Uncaught e)
    | Pending => outcome r = Pending
    end.
Proof.
  intros Hk Hctx request call r.
  assert (Hempty : or_dict (TaskRequest.context request) [] = [])
    by (by destruct Hctx as [-> | ->]).
  assert (Hcall : call_of agent_logic request = call)
    by (unfold call_of, call; by rewrite Hempty).
  split_and!; [done | |].
  - destruct (execute_task_emitted environ agent_logic request x_api_key Hk)
      as [rest Hrest].
    exists rest. subst r. rewrite Hrest, Hcall. unfold invocation.
    by rewrite Hempty.
  - subst r. rewrite execute_task_outcome, Hk, Hcall.
    by destruct (outcome call).
Qed.

Lemma execute_task_context_never_none_witness :
  let request := TaskRequest.new "Plan a trip to Paris" (Given (Some "u1"))
                   (Given None) Omitted in
  let call := process_task ∅ "Plan a trip to Paris" (Some "u1") [] in
  or_dict (TaskRequest.context request) [] = []
  ∧ (∃ rest, emitted (execute_task ∅ (process_task ∅) request None)
             = (preamble request
                ++ Invoke "Plan a trip to Paris" (Some "u1") []
                :: emitted call ++ rest)%list)
  ∧ outcome (execute_task ∅ (process_task ∅) request None)
    = Returns (completed ∅ "Processed by gcp-adk-agent: Plan a trip to Paris").
Proof.
  intros request call.
  exact (execute_task_context_never_none ∅ (process_task ∅)
           "Plan a trip to Paris" (Given (Some "u1")) (Given None) Omitted None
           eq_refl (or_intror eq_refl)).
Defined.

(** * Further properties *)

(** ** Splitting the configured tag lists *)

Section Split.
Variable sep : ascii.

Lemma concat_cons_cons (x y : string) (l : list string) :
  String.concat (String sep "") (x :: y :: l)
  = x +:+ String sep (String.concat (String sep "") (y :: l)).
Proof. reflexivity. Qed.

Lemma split_String c s :
  split sep (String c s)
  = if Ascii.eqb c sep then "" :: split sep s
    else match split sep s with
         | [] => [String c ""]
         | piece :: pieces => String c piece :: pieces
         end.
Proof. reflexivity. Qed.

Lemma concat_split s : String.concat (String sep "") (split sep s) = s.
Proof.
  induction s as [|c s IH]; [done|]. rewrite split_String.
  destruct (split sep s) as [|p l] eqn:Hs; [by apply split_not_nil in Hs|].
  destruct (Ascii.eqb_spec c sep) as [->|Hne].
  - rewrite concat_cons_cons, IH. done.
  - destruct l as [|q l].
    + simpl in *. by rewrite IH.
    + rewrite concat_cons_cons in *. by rewrite <- IH.
Qed.

Lemma length_split s : length (split sep s) = S (count sep s).
Proof.
  induction s as [|c s IH]; [done|]. simpl.
  destruct (Ascii.eqb c sep); simpl; [by rewrite IH|].
  destruct (split sep s) as [|p l] eqn:Hs; [by apply split_not_nil in Hs|].
  done.
Qed.

Lemma split_pieces s : Forall (λ piece, count sep piece = 0%nat) (split sep s).
Proof.
  induction s as [|c s IH]; simpl; [by repeat constructor|].
  destruct (Ascii.eqb c sep) eqn:Hc; [by constructor|].
  destruct (split sep s) as [|p l]; [repeat constructor; simpl; by rewrite Hc|].
  inversion_clear IH. constructor; [|done]. simpl. by rewrite Hc.
Qed.

Lemma split_piece p : count sep p = 0%nat → split sep p = [p].
Proof.
  induction p as [|c p IH]; [done|]. simpl.
  destruct (Ascii.eqb c sep); [done|]. intros Hp. by rewrite IH.
Qed.

Lemma split_piece_sep p s :
  count sep p = 0%nat → split sep (p +:+ String sep s) = p :: split sep s.
Proof.
  induction p as [|c p IH]; simpl.
  - by rewrite Ascii.eqb_refl.
  - destruct (Ascii.eqb c sep); [done|]. intros Hp. by rewrite IH.
Qed.

Lemma split_concat l :
  l ≠ [] → Forall (λ piece, count sep piece = 0%nat) l →
  split sep (String.concat (String sep "") l) = l.
Proof.
  induction l as [|p l IH]; [done|]. intros _ Hall.
  inversion_clear Hall as [|? ? Hp Hl].
  destruct l as [|q l]; [by apply split_piece|].
  rewrite concat_cons_cons, split_piece_sep by done.
  by rewrite IH.
Qed.
End Split.

(** X1.  The capabilities and keywords the module publishes keep the whole
    configured text: joined again with commas they give back the value of
    the environment variable (or the default when it is not set).  The list
    is never empty, has one entry more than the text has commas, and no
    entry contains a comma. *)
Theorem tags_keep_configured_text environ :
  let caps := getenv_or environ "AGENT_CAPABILITIES" "general,nlp,conversation" in
  let kws := getenv_or environ "AGENT_KEYWORDS" "chat,assistant,help" in
  String.concat "," (AGENT_CAPABILITIES environ) = caps
  ∧ String.concat "," (AGENT_KEYWORDS environ) = kws
  ∧ length (AGENT_CAPABILITIES environ) = S (count "," caps)
  ∧ length (AGENT_KEYWORDS environ) = S (count "," kws)
  ∧ Forall (λ tag, contains "," tag = false) (AGENT_CAPABILITIES environ)
  ∧ Forall (λ tag, contains "," tag = false) (AGENT_KEYWORDS environ).
Proof.
  intros caps kws. unfold AGENT_CAPABILITIES, AGENT_KEYWORDS.
  split_and!; try apply concat_split; try apply length_split.
  - eapply Forall_impl; [apply split_pieces|].
    intros tag Htag. unfold contains. by rewrite Htag.
  - eapply Forall_impl; [apply split_pieces|].
    intros tag Htag. unfold contains. by rewrite Htag.
Qed.

(** X2.  A variable that is set to the empty text does not give an empty
    list and does not fall back to the default: the module then publishes
    the single empty tag. *)
Theorem tags_of_empty_text environ :
  environ !! "AGENT_CAPABILITIES" = Some "" →
  AGENT_CAPABILITIES environ = [""]
  ∧ ∃ descriptor, outcome (agent_discovery environ) = Returns descriptor
      ∧ field descriptor "capabilities" = Some (JList [JStr ""]).
Proof.
  intros Hset.
  assert (Hcaps : AGENT_CAPABILITIES environ = [""])
    by (unfold AGENT_CAPABILITIES, getenv_or; by rewrite Hset).
  split; [done|]. eexists. split; [reflexivity|]. simpl. by rewrite Hcaps.
Qed.

Lemma tags_of_empty_text_witness :
  AGENT_CAPABILITIES {["AGENT_CAPABILITIES" := ""]} = [""]
  ∧ ∃ descriptor,
      outcome (agent_discovery {["AGENT_CAPABILITIES" := ""]}) = Returns descriptor
      ∧ field descriptor "capabilities" = Some (JList [JStr ""]).
Proof. apply (tags_of_empty_text {["AGENT_CAPABILITIES" := ""]}). reflexivity. Defined.

(** X3.  Every non-empty list of comma-free tags can be configured: with
    the tags joined by commas in the variable, the module publishes exactly
    that list, in that order. *)
Theorem tags_configurable environ (tags : list string) :
  tags ≠ [] →
  Forall (λ tag, contains "," tag = false) tags →
  environ !! "AGENT_CAPABILITIES" = Some (String.concat "," tags) →
  AGENT_CAPABILITIES environ = tags.
Proof.
  intros Hne Htags Hset. unfold AGENT_CAPABILITIES, getenv_or. rewrite Hset.
  apply split_concat; [done|].
  eapply Forall_impl; [exact Htags|].
  intros tag. unfold contains. by destruct (count "," tag).
Qed.

Lemma tags_configurable_witness :
  AGENT_CAPABILITIES {["AGENT_CAPABILITIES" := "travel,currency exchange,"]}
  = ["travel"; "currency exchange"; ""].
Proof.
  apply (tags_configurable {["AGENT_CAPABILITIES" := "travel,currency exchange,"]}
           ["travel"; "currency exchange"; ""]).
  - discriminate.
  - repeat constructor.
  - reflexivity.
Defined.

(** ** Where the outcomes of the execute endpoint come from *)

Lemma execute_task_returns_inv environ agent_logic request x_api_key response :
  outcome (execute_task environ agent_logic request x_api_key) = Returns response →
  key_rejected environ x_api_key = false
  ∧ ∃ result, outcome (call_of agent_logic request) = Returns result
      ∧ response = completed environ result.
Proof.
  destruct (key_rejected environ x_api_key) eqn:Hk.
  { by rewrite execute_task_rejected. }
  destruct (outcome (call_of agent_logic request)) as [res|e|] eqn:Hcall.
  - rewrite (execute_task_returns _ _ _ _ res) by done. simpl.
    intros [= <-]. eauto.
  - rewrite (execute_task_raises _ _ _ _ e) by done.
    by destruct (isinstance_Exception e).
  - by rewrite execute_task_pending.
Qed.

Section Origins.
Variables (environ : gmap string string) (agent_logic : processor).
Variables (request : TaskRequest.t) (x_api_key : option string).

(** X4.  A response is returned only when the key check passed and the
    agent logic itself returned, and it then wraps exactly that result: no
    success is made up and no result is altered. *)
Theorem execute_task_returns_iff response :
  outcome (execute_task environ agent_logic request x_api_key) = Returns response
  ↔ key_rejected environ x_api_key = false
    ∧ ∃ result, outcome (call_of agent_logic request) = Returns result
        ∧ response = TaskResponse.new result (AGENT_NAME environ)
                       (Given "completed")
                       (Given (Some [
                         ("platform", JStr "gcp");
                         ("service", JStr "cloud-run");
                         ("region", JStr (getenv_or environ "GCP_REGION" "unknown"))])).
Proof.
  split.
  - apply execute_task_returns_inv.
  - intros (Hk & result & Hcall & ->).
    by rewrite (execute_task_returns _ _ _ _ result).
Qed.

(** X5.  A 500 is raised if and only if the key check passed and the agent
    logic raised an instance of [Exception]; its detail is ["Task execution
    failed: "] followed by the text of that exception.  Whenever a 500 is
    raised, its detail is also the last record of the log, at level ERROR. *)
Theorem execute_task_500_iff detail :
  (outcome (execute_task environ agent_logic request x_api_key)
   = Raises (HTTPException 500 detail)
   ↔ key_rejected environ x_api_key = false
     ∧ ∃ e, outcome (call_of agent_logic request) = Raises e
         ∧ isinstance_Exception e = true
         ∧ detail = "Task execution failed: " +:+ str e)
  ∧ (outcome (execute_task environ agent_logic request x_api_key)
     = Raises (HTTPException 500 detail) →
     last (emitted (execute_task environ agent_logic request x_api_key))
     = Some (Log ERROR detail)).
Proof.
  assert (Hinv :
    outcome (execute_task environ agent_logic request x_api_key)
    = Raises (HTTPException 500 detail) →
    key_rejected environ x_api_key = false
    ∧ ∃ e, outcome (call_of agent_logic request) = Raises e
        ∧ isinstance_Exception e = true
        ∧ detail = "Task execution failed: " +:+ str e).
  { rewrite execute_task_outcome.
    destruct (key_rejected environ x_api_key); [done|].
    destruct (outcome (call_of agent_logic request)) as [res|e|]; [done| |done].
    destruct (isinstance_Exception e) eqn:He; [|done].
    intros [= <-]. eauto. }
  split; [split; [exact Hinv|] |].
  - intros (Hk & e & Hcall & He & ->).
    by rewrite (execute_task_raises _ _ _ _ e), He.
  - intros (Hk & e & Hcall & He & ->)%Hinv.
    rewrite (execute_task_raises _ _ _ _ e), He by done. cbn [emitted].
    by rewrite app_comm_cons, !app_assoc, last_snoc.
Qed.

(** X6.  An exception of the agent logic that is no instance of [Exception]
    (a cancellation, an interpreter exit) is not turned into a 500: it
    leaves [execute_task] as it is, and nothing is logged after the call. *)
Theorem execute_task_passes_non_exceptions e :
  key_rejected environ x_api_key = false →
  outcome (call_of agent_logic request) = Raises e →
  isinstance_Exception e = false →
  execute_task environ agent_logic request x_api_key
  = Run (preamble request ++ invocation request
           :: emitted (call_of agent_logic request))
        (Raises (Uncaught e))
  ∧ ∀ status_code detail,
      outcome (execute_task environ agent_logic request x_api_key)
      ≠ Raises (HTTPException status_code detail).
Proof.
  intros Hk Hcall He.
  rewrite (execute_task_raises _ _ _ _ e), He by done. by split.
Qed.
End Origins.

Lemma execute_task_passes_non_exceptions_witness :
  let request := TaskRequest.new "Plan a trip to Paris" Omitted Omitted Omitted in
  execute_task ∅ cancelled request None
  = Run (preamble request ++ invocation request
           :: emitted (call_of cancelled request))
        (Raises (Uncaught {| isinstance_Exception := false; str := "" |}))
  ∧ ∀ status_code detail,
      outcome (execute_task ∅ cancelled request None)
      ≠ Raises (HTTPException status_code detail).
Proof.
  intros request.
  apply (execute_task_passes_non_exceptions ∅ cancelled request None
           {| isinstance_Exception := false; str := "" |}); reflexivity.
Defined.

(** ** What is logged of the task *)

(** X7.  At the level the module configures, INFO, the DEBUG record that
    would show the first 100 characters of the task is not emitted: a DEBUG
    record is in a run of [execute_task] only if the key check passed and
    the agent logic emitted it, and with the placeholder there is none. *)
Theorem execute_task_emits_no_debug environ agent_logic request x_api_key :
  (∀ msg,
     Log DEBUG msg ∈ emitted (execute_task environ agent_logic request x_api_key)
     ↔ key_rejected environ x_api_key = false
       ∧ Log DEBUG msg ∈ emitted (call_of agent_logic request))
  ∧ (∀ msg,
       Log DEBUG msg
       ∉ emitted (execute_task environ (process_task environ) request x_api_key)).
Proof.
  assert (Hiff : ∀ logic msg,
    Log DEBUG msg ∈ emitted (execute_task environ logic request x_api_key)
    ↔ key_rejected environ x_api_key = false
      ∧ Log DEBUG msg ∈ emitted (call_of logic request)).
  { intros logic msg.
    destruct (key_rejected environ x_api_key) eqn:Hk.
    { rewrite execute_task_rejected by done. cbn [emitted].
      rewrite list_elem_of_singleton. split; [done | by intros [? _]]. }
    destruct (outcome (call_of logic request)) as [res|e|] eqn:Hcall.
    - rewrite (execute_task_returns _ _ _ _ res) by done. cbn [emitted].
      unfold preamble, invocation.
      repeat (rewrite elem_of_app || rewrite elem_of_cons || rewrite elem_of_nil).
      intuition congruence.
    - rewrite (execute_task_raises _ _ _ _ e) by done.
      destruct (isinstance_Exception e); cbn [emitted];
        unfold preamble, invocation;
        repeat (rewrite elem_of_app || rewrite elem_of_cons || rewrite elem_of_nil);
        intuition congruence.
    - rewrite execute_task_pending by done. cbn [emitted].
      unfold preamble, invocation.
      repeat (rewrite elem_of_app || rewrite elem_of_cons || rewrite elem_of_nil).
      intuition congruence. }
  split; [apply Hiff|].
  intros msg [_ Hin]%Hiff. unfold call_of in Hin.
  rewrite process_task_run in Hin. cbn [emitted] in Hin.
  by apply list_elem_of_singleton in Hin.
Qed.

(** ** Region tags *)

(** X8.  The region a response is tagged with and the region the descriptor
    publishes are both read from [GCP_REGION], but with different defaults
    (["unknown"] and ["us-central1"]): the two agree exactly when the
    variable is set. *)
Theorem region_tags_agree_iff environ agent_logic request x_api_key response :
  outcome (execute_task environ agent_logic request x_api_key) = Returns response →
  ∃ tags descriptor contact tagged published,
    TaskResponse.metadata response = Some tags
    ∧ get tags "region" = Some (JStr tagged)
    ∧ outcome (agent_discovery environ) = Returns descriptor
    ∧ field descriptor "contact" = Some contact
    ∧ field contact "region" = Some (JStr published)
    ∧ (tagged = published ↔ is_Some (environ !! "GCP_REGION")).
Proof.
  intros (_ & result & _ & ->)%execute_task_returns_inv.
  eexists _, _, _, _, _. split_and!; try reflexivity.
  unfold getenv_or. destruct (environ !! "GCP_REGION") as [region|].
  - split; [by eexists | done].
  - split; [done | by intros [? ?]].
Qed.

Lemma region_tags_agree_iff_witness :
  let request := TaskRequest.new "Plan a trip to Paris" Omitted Omitted Omitted in
  ∃ tags descriptor contact tagged published,
    TaskResponse.metadata (completed ∅ "Processed by gcp-adk-agent: Plan a trip to Paris")
    = Some tags
    ∧ get tags "region" = Some (JStr tagged)
    ∧ outcome (agent_discovery ∅) = Returns descriptor
    ∧ field descriptor "contact" = Some contact
    ∧ field contact "region" = Some (JStr published)
    ∧ (tagged = published ↔ is_Some ((∅ : gmap string string) !! "GCP_REGION")).
Proof.
  intros request.
  apply (region_tags_agree_iff ∅ (process_task ∅) request None).
  reflexivity.
Defined.

(** ** The other endpoints *)

(** X9.  Health, metrics, root and discovery always answer, whatever the
    secret is, and name the agent alike: the service of the health report
    and the agent of the metrics are the name of the descriptor, which is
    also the agent of every response of the execute endpoint and the name
    the root message welcomes to. *)
Theorem endpoints_agree_on_name environ :
  ∃ health measured welcome descriptor,
    outcome (health_check environ) = Returns health
    ∧ outcome (metrics environ) = Returns measured
    ∧ outcome (root environ) = Returns welcome
    ∧ outcome (agent_discovery environ) = Returns descriptor
    ∧ field descriptor "name" = Some (JStr (AGENT_NAME environ))
    ∧ field health "service" = field descriptor "name"
    ∧ field measured "agent" = field descriptor "name"
    ∧ field welcome "message" = Some (JStr ("Welcome to " +:+ AGENT_NAME environ))
    ∧ field health "status" = Some (JStr "healthy")
    ∧ (∀ agent_logic request x_api_key response,
         outcome (execute_task environ agent_logic request x_api_key)
         = Returns response →
         field health "service" = Some (JStr (TaskResponse.agent response)))
    ∧ (∀ secret,
         health_check (<["API_KEY" := secret]> environ) = health_check environ
         ∧ metrics (<["API_KEY" := secret]> environ) = metrics environ
         ∧ root (<["API_KEY" := secret]> environ) = root environ).
Proof.
  eexists _, _, _, _. split_and!; try reflexivity.
  - intros agent_logic request x_api_key response
      (_ & result & _ & ->)%execute_task_returns_inv.
    reflexivity.
  - intros secret. unfold health_check, metrics, root, AGENT_NAME.
    by rewrite !getenv_or_insert_ne.
Qed.

(** X10.  What the module advertises can be reached: each endpoint of the
    descriptor is the path of a route the module registers, and so is, with
    the verb GET, the discovery path of the root message. *)
Theorem advertised_paths_are_routes environ :
  ∃ descriptor endpoints welcome,
    outcome (agent_discovery environ) = Returns descriptor
    ∧ field descriptor "endpoints" = Some endpoints
    ∧ (∀ name path, field endpoints name = Some (JStr path) →
         ∃ v, (v, path) ∈ routes)
    ∧ field endpoints "execute" = Some (JStr "/execute")
    ∧ (POST, "/execute") ∈ routes
    ∧ outcome (root environ) = Returns welcome
    ∧ (∃ path, field welcome "discovery" = Some (JStr path) ∧ (GET, path) ∈ routes).
Proof.
  eexists _, _, _. split_and!; try reflexivity.
  - intros name path. cbn [field get].
    repeat (destruct (String.eqb _ name);
            [intros [= <-]; eexists; unfold routes;
             rewrite !elem_of_cons; eauto 10 |]).
    done.
  - unfold routes. rewrite !elem_of_cons. eauto 10.
  - eexists. split; [reflexivity|]. unfold routes. rewrite !elem_of_cons. eauto 10.
Qed.

(** ** The placeholder *)

Lemma append_inj_r (p a b : string) : p +:+ a = p +:+ b → a = b.
Proof. induction p as [|c p IH]; [done|]. intros [= H]. by apply IH. Qed.

(** X11.  The placeholder answers from the task alone: two requests that
    pass the key check get the same outcome exactly when their tasks are
    equal, whoever the users are and whatever context and metadata they
    carry. *)
Theorem placeholder_depends_on_task_only environ request1 request2 key1 key2 :
  key_rejected environ key1 = false →
  key_rejected environ key2 = false →
  outcome (execute_task environ (process_task environ) request1 key1)
  = outcome (execute_task environ (process_task environ) request2 key2)
  ↔ TaskRequest.task request1 = TaskRequest.task request2.
Proof.
  intros Hk1 Hk2.
  rewrite (execute_task_returns _ _ _ _
             ("Processed by " +:+ AGENT_NAME environ +:+ ": "
              +:+ TaskRequest.task request1)) by done.
  rewrite (execute_task_returns _ _ _ _
             ("Processed by " +:+ AGENT_NAME environ +:+ ": "
              +:+ TaskRequest.task request2)) by done.
  cbn [outcome]. split.
  - intros [= Hres].
    change (AGENT_NAME environ +:+ ": " +:+ TaskRequest.task request1
            = AGENT_NAME environ +:+ ": " +:+ TaskRequest.task request2) in Hres.
    by apply append_inj_r, (append_inj_r ": ") in Hres.
  - by intros ->.
Qed.

Lemma placeholder_depends_on_task_only_witness :
  outcome (execute_task ∅ (process_task ∅)
             (TaskRequest.new "Plan a trip to Paris" (Given (Some "u1"))
                (Given (Some [("locale", JStr "fr")])) Omitted) None)
  = outcome (execute_task ∅ (process_task ∅)
               (TaskRequest.new "Plan a trip to Paris" Omitted Omitted Omitted)
               (Some "any"))
  ↔ "Plan a trip to Paris" = "Plan a trip to Paris".
Proof.
  apply (placeholder_depends_on_task_only ∅
           (TaskRequest.new "Plan a trip to Paris" (Given (Some "u1"))
              (Given (Some [("locale", JStr "fr")])) Omitted)
           (TaskRequest.new "Plan a trip to Paris" Omitted Omitted Omitted)
           None (Some "any")); reflexivity.
Defined.

(** ** The task form of the web UI *)

Section Submit.
Variables orchestrator_url user_id task_input execution_mode preferred_agent : string.
Variable submit_button : bool.

(** X12.  The form posts nothing unless the button was pressed on a
    non-empty task.  What it posts goes to [/task] for the mode
    "Synchronous" and to [/task/async] for any other, with a timeout of 30
    seconds and a body that holds the task and the user, and the preferred
    agent exactly when one was typed in. *)
Theorem submit_task_request :
  (Streamlit.submit_task orchestrator_url user_id task_input execution_mode
     preferred_agent submit_button = None
   ↔ submit_button = false ∨ task_input = "")
  ∧ ∀ posted,
      Streamlit.submit_task orchestrator_url user_id task_input execution_mode
        preferred_agent submit_button = Some posted →
      Streamlit.method posted = POST
      ∧ Streamlit.timeout posted = 30
      ∧ Streamlit.params posted = []
      ∧ (Streamlit.url posted = orchestrator_url +:+ "/task"
         ↔ execution_mode = "Synchronous")
      ∧ (Streamlit.url posted = orchestrator_url +:+ "/task/async"
         ↔ execution_mode ≠ "Synchronous")
      ∧ ∃ payload,
          Streamlit.json_body posted = Some payload
          ∧ get payload "task" = Some (JStr task_input)
          ∧ get payload "user_id" = Some (JStr user_id)
          ∧ get payload "preferred_agent"
            = (if decide (preferred_agent = "") then None
               else Some (JStr preferred_agent))
          ∧ keys payload
            = (if decide (preferred_agent = "") then ["task"; "user_id"]
               else ["task"; "user_id"; "preferred_agent"]).
Proof.
  unfold Streamlit.submit_task. split.
  - destruct submit_button, task_input; simpl; split; try done; auto;
      by intros [|].
  - intros posted.
    destruct (submit_button && truthy_str (Some task_input)); [|done].
    intros [= <-]. cbn [Streamlit.method Streamlit.timeout Streamlit.params
                        Streamlit.url Streamlit.json_body].
    split_and!; try done.
    + destruct (String.eqb_spec execution_mode "Synchronous") as [->|Hne].
      * done.
      * split; [|done]. by intros [=]%append_inj_r.
    + destruct (String.eqb_spec execution_mode "Synchronous") as [->|Hne].
      * split; [|done]. by intros [=]%append_inj_r.
      * done.
    + destruct preferred_agent as [|c agent]; simpl; eexists;
        split_and!; reflexivity.
Qed.
End Submit.

Lemma submit_task_request_witness :
  ∃ posted,
    Streamlit.submit_task "http://4.150.144.45" "streamlit-user"
      "Convert 100 USD to EUR" "Asynchronous" "" true = Some posted
    ∧ Streamlit.method posted = POST
    ∧ Streamlit.url posted = "http://4.150.144.45/task/async"
    ∧ Streamlit.json_body posted
      = Some [("task", JStr "Convert 100 USD to EUR");
              ("user_id", JStr "streamlit-user")].
Proof.
  eexists. split; [reflexivity|].
  destruct (proj2 (submit_task_request "http://4.150.144.45" "streamlit-user"
                     "Convert 100 USD to EUR" "Asynchronous" "" true) _ eq_refl)
    as (Hmethod & _ & _ & _ & Hurl & _).
  split_and!; [exact Hmethod | reflexivity | reflexivity].
Defined.
